(** * RV Gunnerus 4-DOF simulator: kinematics and thruster primitives

    Shallow embedding of
      - [src/mcsimpy/models/rv_gunnerus_4dof/kinematics.py]
      - [src/mcsimpy/models/rv_gunnerus_4dof/thrusters.py]

    Number model.  The source computes on NumPy [float64] scalars.  They are
    embedded as the type [num]: a real number, one of the two infinities, or
    NaN.  Finite values follow exact real arithmetic (rounding and overflow
    are idealised away, and zero carries no sign); the special values follow
    the IEEE 754 rules NumPy applies to them: division by zero and
    [inf - inf] return a special value with a run-time warning, they do not
    raise.

    Where the idealisation differs from [float64] in kind, not only by
    rounding, statements are restricted by hypotheses:
      - range: a Python float squared by [**] raises [OverflowError], and a
        NumPy product overflows to an infinity, when the result exceeds
        about 1.8e308; the embedding has no overflow, so statements about
        what a call returns or prints for all inputs assume [moderate]
        arguments, for which no intermediate result leaves the range;
      - signed zero: [np.arctan2] tells [-0.0] from [0.0] when its second
        argument is negative or a zero; the embedding has one zero, so
        statements that depend on the inflow angle there exclude a zero
        sway speed with a surge speed that is negative or zero.

    Effects.  Indexing a short array raises [IndexError], a shape mismatch in
    [@] or in a slice assignment raises [ValueError]; both are values of the
    error monad [result].  The one [print] of the source is modelled by the
    list of lines written to standard output. *)

From Stdlib Require Import Reals Lra ZArith Bool String List.
From Stdlib Require Import DecimalString RNsatz Lia.
Import ListNotations.

Set Implicit Arguments.

(** ** Floating-point values, idealised *)

Module Num.

Local Open Scope R_scope.

Inductive num : Type :=
| Fin (r : R)
| PInf
| NInf
| NaN.

Declare Scope num_scope.
Delimit Scope num_scope with num.
Bind Scope num_scope with num.

(** Sign of a real, as a three-way comparison with zero. *)
Definition Rsign (r : R) : comparison :=
  if Rlt_dec 0 r then Gt else if Rlt_dec r 0 then Lt else Eq.

(** The infinity of a given sign; the sign of zero gives NaN, which is the
    IEEE result of every operation below whose sign is undetermined. *)
Definition inf_of_sign (s : comparison) : num :=
  match s with Gt => PInf | Lt => NInf | Eq => NaN end.

Definition sign_mul (s t : comparison) : comparison :=
  match s, t with
  | Eq, _ | _, Eq => Eq
  | Gt, Gt | Lt, Lt => Gt
  | Gt, Lt | Lt, Gt => Lt
  end.

Definition is_finite (x : num) : bool :=
  match x with Fin _ => true | _ => false end.

Definition nneg (x : num) : num :=
  match x with
  | Fin a => Fin (- a)
  | PInf => NInf
  | NInf => PInf
  | NaN => NaN
  end.

Definition nabs (x : num) : num :=
  match x with
  | Fin a => Fin (Rabs a)
  | PInf | NInf => PInf
  | NaN => NaN
  end.

Definition nadd (x y : num) : num :=
  match x, y with
  | Fin a, Fin b => Fin (a + b)
  | NaN, _ | _, NaN => NaN
  | PInf, NInf | NInf, PInf => NaN
  | PInf, _ | _, PInf => PInf
  | NInf, _ | _, NInf => NInf
  end.

Definition nsub (x y : num) : num := nadd x (nneg y).

Definition nmul (x y : num) : num :=
  match x, y with
  | Fin a, Fin b => Fin (a * b)
  | NaN, _ | _, NaN => NaN
  | Fin a, PInf | PInf, Fin a => inf_of_sign (Rsign a)
  | Fin a, NInf | NInf, Fin a => inf_of_sign (sign_mul (Rsign a) Lt)
  | PInf, PInf | NInf, NInf => PInf
  | PInf, NInf | NInf, PInf => NInf
  end.

(** [x / y] of NumPy scalars: a zero divisor gives the infinity of the sign of
    the dividend ([0 / 0] is NaN), never an exception. *)
Definition ndiv (x y : num) : num :=
  match x, y with
  | NaN, _ | _, NaN => NaN
  | Fin a, Fin b =>
      if Req_EM_T b 0 then inf_of_sign (Rsign a) else Fin (a / b)
  | Fin _, (PInf | NInf) => Fin 0
  | PInf, Fin b => if Req_EM_T b 0 then PInf else inf_of_sign (Rsign b)
  | NInf, Fin b =>
      if Req_EM_T b 0 then NInf else inf_of_sign (sign_mul (Rsign b) Lt)
  | (PInf | NInf), (PInf | NInf) => NaN
  end.

(** [x ** 2], in exact arithmetic: no overflow (a Python float raises
    [OverflowError] there, a NumPy scalar gives an infinity). *)
Definition npow2 (x : num) : num := nmul x x.

Definition nsqrt (x : num) : num :=
  match x with
  | Fin a => if Rlt_dec a 0 then NaN else Fin (sqrt a)
  | PInf => PInf
  | NInf | NaN => NaN
  end.

Definition nsin (x : num) : num :=
  match x with Fin a => Fin (sin a) | _ => NaN end.

Definition ncos (x : num) : num :=
  match x with Fin a => Fin (cos a) | _ => NaN end.

(** [np.tan]: the quotient of sine and cosine, infinite at the poles. *)
Definition ntan (x : num) : num :=
  match x with Fin a => ndiv (Fin (sin a)) (Fin (cos a)) | _ => NaN end.

(** The two-argument arctangent on the reals, with values in (-pi, pi];
    [Ratan2 0 0 = 0] as for [np.arctan2(0.0, 0.0)].  The reals have one
    zero: for [y = 0] and [x < 0] the value is pi, that of
    [np.arctan2(0.0, x)], where [np.arctan2(-0.0, x)] is -pi. *)
Definition Ratan2 (y x : R) : R :=
  if Rlt_dec 0 x then atan (y / x)
  else if Rlt_dec x 0 then
         if Rlt_dec y 0 then atan (y / x) - PI else atan (y / x) + PI
       else if Rlt_dec 0 y then PI / 2
            else if Rlt_dec y 0 then - (PI / 2) else 0.

(** [np.arctan2(y, x)], with the C99 values at the infinities. *)
Definition natan2 (y x : num) : num :=
  match y, x with
  | NaN, _ | _, NaN => NaN
  | Fin b, Fin a => Fin (Ratan2 b a)
  | Fin _, PInf => Fin 0
  | Fin b, NInf => if Rlt_dec b 0 then Fin (- PI) else Fin PI
  | PInf, Fin _ => Fin (PI / 2)
  | NInf, Fin _ => Fin (- (PI / 2))
  | PInf, PInf => Fin (PI / 4)
  | PInf, NInf => Fin (3 * PI / 4)
  | NInf, PInf => Fin (- (PI / 4))
  | NInf, NInf => Fin (- (3 * PI / 4))
  end.

(** [x > y]; every comparison with NaN is false. *)
Definition ngt (x y : num) : bool :=
  match x, y with
  | NaN, _ | _, NaN => false
  | Fin a, Fin b => if Rlt_dec b a then true else false
  | PInf, (Fin _ | NInf) => true
  | Fin _, NInf => true
  | _, _ => false
  end.

End Num.

Export Num.

Notation "0" := (Fin 0%R) : num_scope.
Notation "1" := (Fin 1%R) : num_scope.
Infix "+" := nadd : num_scope.
Infix "-" := nsub : num_scope.
Infix "*" := nmul : num_scope.
Infix "/" := ndiv : num_scope.
Notation "- x" := (nneg x) : num_scope.

(** ** Exceptions *)

(** [IndexError], [ValueError] and [OverflowError] are the Python exceptions
    the embedded code can raise.  [SingularTransform] and [InvalidInput] are
    the two fatal error kinds of the error taxonomy the library is specified
    against; no statement of the source raises them. *)
Inductive error : Type :=
| IndexError
| ValueError
| OverflowError
| SingularTransform
| InvalidInput.

Inductive result (A : Type) : Type :=
| Ok (a : A)
| Raise (e : error).

Arguments Ok {A} a.
Arguments Raise {A} e.

Definition bind {A B : Type} (m : result A) (f : A -> result B) : result B :=
  match m with
  | Ok a => f a
  | Raise e => Raise e
  end.

Notation "x <- m ;; k" := (bind m (fun x => k))
  (at level 61, m at next level, right associativity).

Definition raises {A : Type} (m : result A) : Prop :=
  exists e, m = Raise e.

Fixpoint mapM {A B : Type} (f : A -> result B) (l : list A)
  : result (list B) :=
  match l with
  | [] => Ok []
  | a :: l' => b <- f a ;; bs <- mapM f l' ;; Ok (b :: bs)
  end.

(** ** Arrays *)

Definition vec : Type := list num.
Definition mat : Type := list (list num).

Local Open Scope num_scope.

(** [x[i]] *)
Definition get (x : vec) (i : nat) : result num :=
  match nth_error x i with
  | Some a => Ok a
  | None => Raise IndexError
  end.

(** [x[lo:hi]]; a slice never raises. *)
Definition slice (x : vec) (lo hi : nat) : vec :=
  firstn (hi - lo) (skipn lo x).

(** [x[[i0, i1, ...]]] *)
Definition take (x : vec) (idx : list nat) : result vec :=
  mapM (get x) idx.

(** [np.zeros(n)] *)
Definition zeros (n : nat) : vec := repeat 0 n.

(** [d[lo:hi] = v] for a one-dimensional [v] of more than one element: the
    shapes must agree. *)
Definition set_slice (d : vec) (lo hi : nat) (v : vec) : result vec :=
  if Nat.eqb (length (slice d lo hi)) (length v)
  then Ok (firstn lo d ++ v ++ skipn (lo + length v) d)
  else Raise ValueError.

(** Inner product of two rows of the same length. *)
Fixpoint dot (u v : vec) : num :=
  match u, v with
  | a :: u', b :: v' => a * b + dot u' v'
  | _, _ => 0
  end.

Definition column (M : mat) (j : nat) : vec :=
  map (fun row => nth j row 0) M.

Definition transpose (M : mat) : mat :=
  match M with
  | [] => []
  | row :: _ => map (column M) (seq 0 (length row))
  end.

Definition conforms (M : mat) (n : nat) : bool :=
  forallb (fun row => Nat.eqb (length row) n) M.

(** [M @ v] *)
Definition matvec (M : mat) (v : vec) : result vec :=
  if conforms M (length v)
  then Ok (map (fun row => dot row v) M)
  else Raise ValueError.

(** [A @ B] *)
Definition matmul (A B : mat) : result mat :=
  if conforms A (length B)
  then Ok (map (fun row => map (dot row) (transpose B)) A)
  else Raise ValueError.

(** [c * v] *)
Definition scale (c : num) (v : vec) : vec := map (nmul c) v.

(** ** kinematics.py *)

Definition rad2pipi (angle : num) : num :=
  natan2 (nsin angle) (ncos angle).

Definition Rotx (angle : num) : mat :=
  [[1; 0; 0];
   [0; ncos angle; - nsin angle];
   [0; nsin angle; ncos angle]].

Definition Roty (angle : num) : mat :=
  [[ncos angle; 0; nsin angle];
   [0; 1; 0];
   [- nsin angle; 0; ncos angle]].

Definition Rotz (angle : num) : mat :=
  [[ncos angle; - nsin angle; 0];
   [nsin angle; ncos angle; 0];
   [0; 0; 1]].

Definition Rotzyx (angles : vec) : result mat :=
  a2 <- get angles 2 ;;
  a1 <- get angles 1 ;;
  a0 <- get angles 0 ;;
  Rzy <- matmul (Rotz a2) (Roty a1) ;;
  matmul Rzy (Rotx a0).

Definition Smat (x : vec) : result mat :=
  x2 <- get x 2 ;;
  x1 <- get x 1 ;;
  x0 <- get x 0 ;;
  Ok [[0; - x2; x1];
      [x2; 0; - x0];
      [- x1; x0; 0]].

Definition dot_eta3 (psi : num) (nu : vec) : result vec :=
  matvec (Rotz psi) nu.

Definition dot_eta6 (eta nu : vec) : result vec :=
  Rzyx <- Rotzyx (slice eta 3 6) ;;
  phi <- get eta 3 ;;
  theta <- get eta 4 ;;
  let T := [[1; nsin phi * ntan theta; ncos phi * ntan theta];
            [0; ncos phi; - nsin phi];
            [0; nsin phi / ncos theta; ncos phi / ncos theta]] in
  let d_eta6 := zeros (length eta) in
  lin <- matvec Rzyx (slice nu 0 3) ;;
  d_eta6 <- set_slice d_eta6 0 3 lin ;;
  ang <- matvec T (slice nu 3 6) ;;
  set_slice d_eta6 3 6 ang.

Definition Rot_planar (angle : num) : mat :=
  [[ncos angle; - nsin angle];
   [nsin angle; ncos angle]].

Definition dot_eta4 (psi : num) (nu : vec) : result vec :=
  let R := [[ncos psi; - nsin psi; 0; 0];
            [nsin psi; ncos psi; 0; 0];
            [0; 0; 1; 0];
            [0; 0; 0; 1]] in
  matvec R nu.

(** ** thrusters.py *)

Definition forceAzi3 (force azi : num) (loc : vec) : result vec :=
  let eps1 := [1; 0; 0] in
  S <- Smat loc ;;
  let R := Rotz azi in
  Re <- matvec R eps1 ;;
  SR <- matmul S R ;;
  SRe <- matvec SR eps1 ;;
  let tau6 := scale force (Re ++ SRe) in
  take tau6 [0%nat; 1%nat; 5%nat].

Definition forceAzi6 (force azi : num) (loc : vec) : result vec :=
  let eps1 := [1; 0; 0] in
  S <- Smat loc ;;
  let R := Rotz azi in
  Re <- matvec R eps1 ;;
  SR <- matmul S R ;;
  SRe <- matvec SR eps1 ;;
  Ok (scale force (Re ++ SRe)).

(** [round(x)] of Python: to the nearest integer, ties to the even one; an
    infinity raises [OverflowError] and NaN raises [ValueError]. *)
Definition round_half_even (r : R) : Z :=
  let n := Int_part r in
  let f := (r - IZR n)%R in
  if Rlt_dec f (1 / 2) then n
  else if Rlt_dec (1 / 2) f then (n + 1)%Z
       else if Z.even n then n else (n + 1)%Z.

Definition py_round (x : num) : result Z :=
  match x with
  | Fin r => Ok (round_half_even r)
  | PInf | NInf => Raise OverflowError
  | NaN => Raise ValueError
  end.

(** [str(n)] of a Python integer. *)
Definition str (n : Z) : string := NilZero.string_of_int (Z.to_int n).

Definition pi : num := Fin PI.

(** The line written by the [print] of [RVGazimuth_man]. *)
Definition aoa_warning (deg : Z) : string :=
  ("Warning (thrusters.RVGazimuth_man): Angle of attack="
   ++ str deg
   ++ "deg, assumed validity range is +/- 30deg")%string.

(** Returns the lines printed to standard output and the pair [(Fx, Fy)]. *)
Definition RVGazimuth_man (u v angle revs : num)
  : result (list string * (num * num)) :=
  let V := nsqrt (npow2 u + npow2 v) in
  let inflow_angle := natan2 v u in
  let aoa := - inflow_angle + angle in
  let aoa_max := Fin 35 * pi / Fin 180 in
  stdout <- (if ngt (nabs aoa) aoa_max
             then deg <- py_round (aoa * Fin 180 / pi) ;;
                  Ok [aoa_warning deg]
             else Ok []) ;;
  let Cd := Fin (3 / 10) + nabs aoa * Fin (3 / 10) in
  let Cl := Fin (1 / 2) * nsin (Fin 2 * aoa) in
  let A := Fin 9 in
  let rho := Fin 1000 in
  let Fdrag := Fin (1 / 2) * rho * A * Cd * npow2 V in
  let Flift := Fin (1 / 2) * rho * A * Cl * npow2 V in
  let Ffoilx := - Fdrag * ncos aoa + Flift * nsin aoa in
  let Ffoily := Flift * ncos aoa + Fdrag * nsin aoa in
  let Ct := Fin (22 / 10) * 1 in
  let Fthrust := Ct * npow2 revs in
  let Fx := Fthrust * ncos angle + Ffoilx * ncos angle - Ffoily * nsin angle in
  let Fy := Fthrust * nsin angle + Ffoilx * nsin angle + Ffoily * ncos angle in
  Ok (stdout, (Fx, Fy)).

(** ** Properties the transforms are checked against *)

Definition mat_neg (M : mat) : mat := map (map nneg) M.

Definition I3 : mat := [[1; 0; 0]; [0; 1; 0]; [0; 0; 1]].

(** Determinant of a 3 x 3 matrix by cofactor expansion along the first
    row (of any other shape: 0). *)
Definition det3 (M : mat) : num :=
  match M with
  | [[a; b; c]; [d; e; f]; [g; h; i]] =>
      a * (e * i - f * h) - b * (d * i - f * g) + c * (d * h - e * g)
  | _ => 0
  end.

(** [np.cross(x, y)] on 3-vectors. *)
Definition cross (x y : vec) : result vec :=
  match x, y with
  | [x0; x1; x2], [y0; y1; y2] =>
      Ok [x1 * y2 - x2 * y1; x2 * y0 - x0 * y2; x0 * y1 - x1 * y0]
  | _, _ => Raise ValueError
  end.

(** Vectors and matrices of finite entries. *)
Definition fvec (l : list R) : vec := map Fin l.
Definition fmat (l : list (list R)) : mat := map fvec l.

(** A matrix is orthonormal when both products with its transpose are the
    identity, and proper when its determinant is one. *)
Definition orthonormal (M : mat) : Prop :=
  matmul (transpose M) M = Ok I3 /\ matmul M (transpose M) = Ok I3.

Definition proper (M : mat) : Prop := det3 M = 1.

Definition diagonal (M : mat) : vec :=
  map (fun i => nth i (nth i M []) NaN) (seq 0 (length M)).

(** The laws of an elementary rotation [Rot] at the angle [a]: orthonormal
    and proper, and the rotation by [- a] is both the transpose and the
    two-sided inverse. *)
Definition rotation_laws (Rot : num -> mat) (a : R) : Prop :=
  orthonormal (Rot (Fin a))
  /\ proper (Rot (Fin a))
  /\ Rot (Fin (- a)%R) = transpose (Rot (Fin a))
  /\ matmul (Rot (Fin a)) (Rot (Fin (- a)%R)) = Ok I3
  /\ matmul (Rot (Fin (- a)%R)) (Rot (Fin a)) = Ok I3.

(** The surge and sway force of the maneuvering model as its specification
    words it (steps 1 to 3 and 5 to 9, the validity check of step 4 left
    out), over the reals. *)
Definition spec_RVGazimuth_forces (u v angle revs : R) : R * R :=
  (let V := sqrt (u * u + v * v) in
  let inflow_angle := Ratan2 v u in
  let aoa := angle - inflow_angle in
  let Cd := 3 / 10 + 3 / 10 * Rabs aoa in
  let Cl := 1 / 2 * sin (2 * aoa) in
  let A := 9 in
  let rho := 1000 in
  let Fdrag := 1 / 2 * rho * A * Cd * (V * V) in
  let Flift := 1 / 2 * rho * A * Cl * (V * V) in
  let Ffoilx := - Fdrag * cos aoa + Flift * sin aoa in
  let Ffoily := Flift * cos aoa + Fdrag * sin aoa in
  let Ct := 22 / 10 in
  let Fthrust := Ct * (revs * revs) in
   (Fthrust * cos angle + Ffoilx * cos angle - Ffoily * sin angle,
    Fthrust * sin angle + Ffoilx * sin angle + Ffoily * cos angle))%R.

(** What the maneuvering model is to write to standard output at the angle
    of attack [aoa]: one line when it exceeds 35 degrees in magnitude,
    nothing otherwise. *)
Definition expected_stdout (aoa : R) : list string :=
  if Rlt_dec (35 * PI / 180) (Rabs aoa)
  then [aoa_warning (round_half_even (aoa * 180 / PI))]
  else [].

Definition finite_pair (p : R * R) : num * num := (Fin (fst p), Fin (snd p)).

(** The exceptions the embedded code can raise. *)
Definition python_error (e : error) : Prop :=
  e = IndexError \/ e = ValueError \/ e = OverflowError.


(** The 2 x 2 identity and determinant, for planar rotations. *)
Definition I2 : mat := [[1; 0]; [0; 1]].

Definition det2 (M : mat) : num :=
  match M with
  | [[a; b]; [c; d]] => a * d - b * c
  | _ => 0
  end.

(** Entry-wise sum of two vectors of the same length. *)
Definition vadd (u v : vec) : vec :=
  map (fun p => fst p + snd p) (combine u v).

(** Magnitudes for which no intermediate result of the maneuvering model
    leaves the range of [float64]: with arguments up to 1e100 the squares
    stay below 1e200 and the largest product, the foil drag, below 1e304. *)
Definition moderate (x : R) : Prop := (- 10 ^ 100 <= x <= 10 ^ 100)%R.



(** * Theorems *)

Example str_examples :
  str 36 = "36"%string /\ str 0 = "0"%string /\ str (-40) = "-40"%string.
Proof. repeat split. Qed.

(** Two scenarios of the thruster load mapper and of the planar kinematics,
    evaluated on the embedding. *)
Example forceAzi6_astern_thruster :
  forceAzi6 (Fin 100) 0 (fvec [-10; 0; 0]%R) = Ok (fvec [100; 0; 0; 0; 0; 0]%R).
Proof.
  cbn. rewrite cos_0, sin_0.
  apply f_equal. repeat apply f_equal2; try reflexivity; apply f_equal; ring.
Qed.

Example dot_eta3_at_rest (psi : R) :
  dot_eta3 (Fin psi) [0; 0; 0] = Ok [0; 0; 0].
Proof.
  cbn. apply f_equal.
  repeat apply f_equal2; try reflexivity; apply f_equal; ring.
Qed.

(** ** Arithmetic of [num] *)

Section NumFacts.

Local Open Scope R_scope.

Lemma ndiv_fin (a b : R) : b <> 0 -> ndiv (Fin a) (Fin b) = Fin (a / b).
Proof.
  intros Hb. unfold ndiv. destruct (Req_EM_T b 0) as [E | _]; [contradiction | reflexivity].
Qed.

Lemma ndiv_fin_zero (a : R) : is_finite (ndiv (Fin a) (Fin 0)) = false.
Proof.
  unfold ndiv. destruct (Req_EM_T 0 0) as [_ | N]; [| now elim N].
  unfold Rsign. destruct (Rlt_dec 0 a); [reflexivity |].
  destruct (Rlt_dec a 0); reflexivity.
Qed.

Lemma nsqrt_fin (a : R) : 0 <= a -> nsqrt (Fin a) = Fin (sqrt a).
Proof.
  intros Ha. unfold nsqrt. destruct (Rlt_dec a 0); [lra | reflexivity].
Qed.

Lemma ngt_fin (a b : R) :
  ngt (Fin a) (Fin b) = if Rlt_dec b a then true else false.
Proof. reflexivity. Qed.

Lemma nmul_finite (x y : num) :
  is_finite (nmul x y) = true -> is_finite x = true /\ is_finite y = true.
Proof.
  destruct x as [a | | |], y as [b | | |]; cbn; try discriminate; auto;
    unfold Rsign; repeat (destruct (Rlt_dec _ _)); cbn; discriminate.
Qed.

Lemma nadd_finite (x y : num) :
  is_finite (nadd x y) = true -> is_finite x = true /\ is_finite y = true.
Proof.
  destruct x as [a | | |], y as [b | | |]; cbn; try discriminate; auto.
Qed.

Lemma nneg_involutive (x : num) : nneg (nneg x) = x.
Proof. destruct x; cbn; try reflexivity. now rewrite Ropp_involutive. Qed.

Lemma Fin_inj (a b : R) : Fin a = Fin b -> a = b.
Proof. now intros [= ->]. Qed.

End NumFacts.

(** ** The error monad *)

Lemma bind_Raise_inv {A B : Type} (m : result A) (f : A -> result B) e :
  bind m f = Raise e -> m = Raise e \/ exists a, m = Ok a /\ f a = Raise e.
Proof. destruct m as [a | e']; cbn; [eauto | intros [= ->]; auto]. Qed.

Lemma get_raises (x : vec) (i : nat) e : get x i = Raise e -> e = IndexError.
Proof. unfold get. destruct (nth_error x i); [discriminate | now intros [= <-]]. Qed.

Lemma matvec_raises (M : mat) (v : vec) e :
  matvec M v = Raise e -> e = ValueError.
Proof. unfold matvec. destruct (conforms M _); [discriminate | now intros [= <-]]. Qed.

Lemma matmul_raises (A B : mat) e : matmul A B = Raise e -> e = ValueError.
Proof. unfold matmul. destruct (conforms A _); [discriminate | now intros [= <-]]. Qed.

Lemma set_slice_raises (d : vec) lo hi (v : vec) e :
  set_slice d lo hi v = Raise e -> e = ValueError.
Proof. unfold set_slice. destruct (Nat.eqb _ _); [discriminate | now intros [= <-]]. Qed.

(** ** Thruster load mapper *)

(** C2: the three-component load of [forceAzi3] is the selection of the
    components 0, 1 and 5 of the six-component load of [forceAzi6], for every
    force, azimuth and location (of any values, finite or not); and for a
    location of three coordinates both loads are returned. *)
Theorem forceAzi3_selects_forceAzi6 (force azi : num) :
  (forall loc : vec,
      forceAzi3 force azi loc
      = (tau6 <- forceAzi6 force azi loc ;; take tau6 [0%nat; 1%nat; 5%nat]))
  /\ (forall l0 l1 l2 : num,
      exists t0 t1 t2 t3 t4 t5,
        forceAzi6 force azi [l0; l1; l2] = Ok [t0; t1; t2; t3; t4; t5]
        /\ forceAzi3 force azi [l0; l1; l2] = Ok [t0; t1; t5]).
Proof.
  split.
  - intros loc. unfold forceAzi3, forceAzi6.
    destruct (Smat loc) as [S | e]; cbn [bind]; [| reflexivity].
    destruct (matvec (Rotz azi) [1; 0; 0]) as [Re | e]; cbn [bind]; [| reflexivity].
    destruct (matmul S (Rotz azi)) as [SR | e]; cbn [bind]; [| reflexivity].
    destruct (matvec SR [1; 0; 0]) as [SRe | e]; cbn [bind]; reflexivity.
  - intros l0 l1 l2. cbn. do 6 eexists. split; reflexivity.
Qed.

(** ** Rotation library *)

Ltac trig_values :=
  rewrite ?cos_neg, ?sin_neg, ?cos_0, ?sin_0, ?cos_PI2, ?sin_PI2, ?Ropp_0.

(** Replaces the sine and cosine of [a] by two unknowns tied by the
    Pythagorean identity, so that the goal becomes polynomial. *)
Ltac abstract_trig a :=
  let H := fresh "Hsc" in
  pose proof (sin2_cos2 a) as H; unfold Rsqr in H;
  generalize dependent (sin a); generalize dependent (cos a); intros.

(** Reduces an equation between computed arrays to the equations between
    their real entries. *)
Ltac entries :=
  cbn; unfold I3;
  repeat match goal with
         | |- Ok _ = Ok _ => apply f_equal
         | |- _ :: _ = _ :: _ => apply f_equal2
         | |- @eq (list _) [] [] => reflexivity
         | |- Fin _ = Fin _ => apply f_equal
         end.

Lemma rotation_laws_Rotx (a : R) : rotation_laws Rotx a.
Proof.
  unfold rotation_laws, orthonormal, proper, Rotx. cbn. trig_values.
  abstract_trig a. repeat split; entries; nsatz.
Qed.

Lemma rotation_laws_Roty (a : R) : rotation_laws Roty a.
Proof.
  unfold rotation_laws, orthonormal, proper, Roty. cbn. trig_values.
  abstract_trig a. repeat split; entries; nsatz.
Qed.

Lemma rotation_laws_Rotz (a : R) : rotation_laws Rotz a.
Proof.
  unfold rotation_laws, orthonormal, proper, Rotz. cbn. trig_values.
  abstract_trig a. repeat split; entries; nsatz.
Qed.

Lemma Rot_zero : Rotx 0 = I3 /\ Roty 0 = I3 /\ Rotz 0 = I3.
Proof.
  unfold Rotx, Roty, Rotz, I3, ncos, nsin, nneg. trig_values. repeat split.
Qed.

Lemma Rotzyx_orthonormal_proper (phi theta psi : R) :
  exists M, Rotzyx (fvec [phi; theta; psi]) = Ok M
            /\ orthonormal M /\ proper M.
Proof.
  eexists. split; [cbn; reflexivity |].
  unfold orthonormal, proper.
  abstract_trig phi. abstract_trig theta. abstract_trig psi.
  repeat split; entries; nsatz.
Qed.

Lemma Rotzyx_zero : Rotzyx [0; 0; 0] = Ok I3.
Proof. cbn. trig_values. entries; ring. Qed.

(** C7, as amended: for every finite angle, [Rotx], [Roty] and [Rotz] return
    an orthonormal matrix of determinant one, the identity at angle zero, and
    the rotation by the opposite angle is the transpose and the inverse; for
    every finite angle triple [Rotzyx] returns an orthonormal matrix of
    determinant one (so its inverse is its transpose), the identity at the
    zero triple. *)
Theorem rotations_orthonormal_proper :
  (forall a : R,
      rotation_laws Rotx a /\ rotation_laws Roty a /\ rotation_laws Rotz a)
  /\ (Rotx 0 = I3 /\ Roty 0 = I3 /\ Rotz 0 = I3)
  /\ (forall phi theta psi : R,
         exists M, Rotzyx (fvec [phi; theta; psi]) = Ok M
                   /\ orthonormal M /\ proper M)
  /\ Rotzyx [0; 0; 0] = Ok I3.
Proof.
  split; [| split; [| split]].
  - intros a. split; [| split].
    + apply rotation_laws_Rotx.
    + apply rotation_laws_Roty.
    + apply rotation_laws_Rotz.
  - exact Rot_zero.
  - exact Rotzyx_orthonormal_proper.
  - exact Rotzyx_zero.
Qed.

(** C7, the part that fails: negating the three angles of [Rotzyx] does not
    give the transpose (the inverse) of the composed rotation, here at roll
    and pitch pi/2 and yaw 0, where entry (0, 1) is 1 instead of 0. *)
Lemma Rotzyx_opposite_not_inverse :
  ~ (exists M,
        Rotzyx (fvec [PI / 2; PI / 2; 0])%R = Ok M
        /\ Rotzyx (fvec [- (PI / 2); - (PI / 2); - 0])%R = Ok (transpose M)).
Proof.
  intros [M [HM Hneg]].
  cbn in HM. injection HM as <-.
  apply (f_equal (fun r => match r with
                           | Ok m => nth 1 (nth 0 m []) NaN
                           | Raise _ => NaN
                           end)) in Hneg.
  cbn in Hneg. apply Fin_inj in Hneg.
  revert Hneg. trig_values. lra.
Qed.

(** C8: [Rotzyx] of the triple (roll, pitch, yaw) is the product of the yaw
    rotation, the pitch rotation and the roll rotation in this order: as the
    code brackets it for any values, and for finite angles also bracketed the
    other way, with the entries of the product written out. *)
Theorem Rotzyx_is_Rz_Ry_Rx :
  (forall phi theta psi : num,
      Rotzyx [phi; theta; psi]
      = (Rzy <- matmul (Rotz psi) (Roty theta) ;; matmul Rzy (Rotx phi)))
  /\ (forall phi theta psi : R,
         Rotzyx (fvec [phi; theta; psi])
         = (Ryx <- matmul (Roty (Fin theta)) (Rotx (Fin phi)) ;;
            matmul (Rotz (Fin psi)) Ryx)
         /\ Rotzyx (fvec [phi; theta; psi])
            = Ok (fmat
                    [[cos psi * cos theta;
                      - sin psi * cos phi + cos psi * sin theta * sin phi;
                      sin psi * sin phi + cos psi * cos phi * sin theta];
                     [sin psi * cos theta;
                      cos psi * cos phi + sin phi * sin theta * sin psi;
                      - cos psi * sin phi + sin theta * sin psi * cos phi];
                     [- sin theta;
                      cos theta * sin phi;
                      cos theta * cos phi]])%R).
Proof.
  split.
  - reflexivity.
  - intros phi theta psi. split; entries; ring.
Qed.

(** C9: [Smat] returns an antisymmetric matrix with a zero diagonal, and on
    real vectors its product with [y] is the cross product of [x] and [y]. *)
Theorem Smat_skew_cross :
  (forall x0 x1 x2 : num,
      exists S, Smat [x0; x1; x2] = Ok S
                /\ transpose S = mat_neg S
                /\ diagonal S = [0; 0; 0])
  /\ (forall x0 x1 x2 y0 y1 y2 : R,
         exists S, Smat (fvec [x0; x1; x2]) = Ok S
                   /\ matvec S (fvec [y0; y1; y2])
                      = cross (fvec [x0; x1; x2]) (fvec [y0; y1; y2])).
Proof.
  split.
  - intros x0 x1 x2. eexists. split; [reflexivity |].
    split; [| reflexivity].
    cbn. rewrite !nneg_involutive, Ropp_0. reflexivity.
  - intros x0 x1 x2 y0 y1 y2. eexists. split; [reflexivity |].
    entries; ring.
Qed.

(** ** Angle wrapping *)

(** Case analysis on every comparison of reals the goal branches on. *)
Ltac case_Rlt :=
  repeat match goal with
         | |- context [Rlt_dec ?a ?b] => destruct (Rlt_dec a b); try lra
         end.

Section Wrapping.

Local Open Scope R_scope.

Lemma atan_pos (t : R) : 0 < t -> 0 < atan t.
Proof. intros Ht. rewrite <- atan_0. now apply atan_increasing. Qed.

Lemma atan_nonpos (t : R) : t <= 0 -> atan t <= 0.
Proof.
  intros [Ht | ->].
  - left. rewrite <- atan_0. now apply atan_increasing.
  - rewrite atan_0. lra.
Qed.

(** The two-argument arctangent takes its values in (-pi, pi]. *)
Lemma Ratan2_range (y x : R) : - PI < Ratan2 y x <= PI.
Proof.
  pose proof PI_RGT_0 as Hpi. pose proof (atan_bound (y / x)) as Hb.
  unfold Ratan2.
  destruct (Rlt_dec 0 x) as [Hx | Hx]; [lra |].
  destruct (Rlt_dec x 0) as [Hx' | Hx'].
  - destruct (Rlt_dec y 0) as [Hy | Hy].
    + pose proof (atan_pos (Rdiv_neg_neg y x Hy Hx')). lra.
    + assert (y / x <= 0) as Hq.
      { destruct (Req_dec y 0) as [-> | Hy0].
        - unfold Rdiv. rewrite Rmult_0_l. lra.
        - left. apply Rdiv_pos_neg; lra. }
      pose proof (atan_nonpos Hq). lra.
  - destruct (Rlt_dec 0 y); [lra |]. destruct (Rlt_dec y 0); lra.
Qed.

(** Shifting an angle by pi leaves the quotient of sine and cosine
    unchanged. *)
Lemma tan_shift (c : R) : cos c <> 0 -> sin (c + PI) / cos (c + PI) = tan c.
Proof.
  intros Hc. rewrite neg_sin, neg_cos. unfold tan. field. exact Hc.
Qed.

(** On (-pi, pi] the two-argument arctangent of (sin, cos) is the
    identity. *)
Lemma Ratan2_sin_cos (b : R) :
  - PI < b <= PI -> Ratan2 (sin b) (cos b) = b.
Proof.
  intros [Hlo Hhi]. pose proof PI_RGT_0 as Hpi.
  destruct (Rtotal_order b (- (PI / 2))) as [Hb | [Hb | Hb]].
  - (* third quadrant: b in (-pi, -pi/2) *)
    assert (cos b < 0) as Hc.
    { rewrite <- cos_neg. apply cos_lt_0; lra. }
    assert (sin b < 0) as Hs by (apply sin_lt_0_var; lra).
    unfold Ratan2.
    destruct (Rlt_dec 0 (cos b)); [lra |].
    destruct (Rlt_dec (cos b) 0); [| lra].
    destruct (Rlt_dec (sin b) 0); [| lra].
    assert (0 < cos (b + PI)) as Hc' by (apply cos_gt_0; lra).
    assert (sin b / cos b = tan (b + PI)) as ->.
    { unfold tan. rewrite neg_sin, neg_cos. field. lra. }
    rewrite atan_tan by lra. ring.
  - (* b = -pi/2 *)
    subst b. unfold Ratan2. rewrite cos_neg, sin_neg, cos_PI2, sin_PI2.
    case_Rlt; lra.
  - destruct (Rtotal_order b (PI / 2)) as [Hb' | [Hb' | Hb']].
    + (* first and fourth quadrant: b in (-pi/2, pi/2) *)
      assert (0 < cos b) as Hc by (apply cos_gt_0; lra).
      unfold Ratan2. destruct (Rlt_dec 0 (cos b)); [| lra].
      change (sin b / cos b) with (tan b). apply atan_tan. lra.
    + (* b = pi/2 *)
      subst b. unfold Ratan2. rewrite cos_PI2, sin_PI2.
      case_Rlt; lra.
    + (* second quadrant: b in (pi/2, pi] *)
      assert (cos b < 0) as Hc by (apply cos_lt_0; lra).
      assert (0 <= sin b) as Hs by (apply sin_ge_0; lra).
      unfold Ratan2.
      destruct (Rlt_dec 0 (cos b)); [lra |].
      destruct (Rlt_dec (cos b) 0); [| lra].
      destruct (Rlt_dec (sin b) 0); [lra |].
      assert (0 < cos (b - PI)) as Hc'.
      { apply cos_gt_0; lra. }
      assert (sin b / cos b = tan (b - PI)) as ->.
      { rewrite <- (@tan_shift (b - PI)) by lra.
        replace (b - PI + PI) with b by ring. reflexivity. }
      rewrite atan_tan by lra. ring.
Qed.

Lemma sin_cos_period_Z (x : R) (k : Z) :
  sin (x + 2 * IZR k * PI) = sin x /\ cos (x + 2 * IZR k * PI) = cos x.
Proof.
  destruct (Z_le_gt_dec 0 k) as [Hk | Hk].
  - rewrite <- (Z2Nat.id k Hk), <- INR_IZR_INZ.
    split; [apply sin_period | apply cos_period].
  - assert (0 <= - k)%Z as Hk' by lia.
    replace (IZR k) with (- IZR (- k)) by (rewrite opp_IZR; ring).
    rewrite <- (Z2Nat.id (- k) Hk'), <- INR_IZR_INZ.
    set (n := Z.to_nat (- k)).
    split.
    + rewrite <- (sin_period (x + 2 * - INR n * PI) n). f_equal. ring.
    + rewrite <- (cos_period (x + 2 * - INR n * PI) n). f_equal. ring.
Qed.

(** Every real angle has a representative in (-pi, pi]. *)
Lemma wrap_exists (a : R) : exists k : Z, - PI < a + 2 * IZR k * PI <= PI.
Proof.
  pose proof PI_RGT_0 as Hpi.
  set (r := (- a - PI) / (2 * PI)).
  assert (r * (2 * PI) = - a - PI) as Hr by (unfold r; field; lra).
  destruct (archimed r) as [Hlo Hhi].
  exists (up r). split; nra.
Qed.

Lemma sqrt_one_plus_sqr (y x : R) :
  x <> 0 -> sqrt (1 + (y / x)²) = sqrt (x * x + y * y) / Rabs x.
Proof.
  intros Hx.
  replace (1 + (y / x)²) with ((x * x + y * y) / (x * x))
    by (unfold Rsqr; field; exact Hx).
  rewrite sqrt_div_alt by nra.
  f_equal. apply sqrt_Rsqr_abs.
Qed.

(** The two-argument arctangent is the polar angle of the point (x, y). *)
Lemma Ratan2_polar (y x : R) :
  sqrt (x * x + y * y) * cos (Ratan2 y x) = x
  /\ sqrt (x * x + y * y) * sin (Ratan2 y x) = y.
Proof.
  remember (sqrt (x * x + y * y)) as r eqn:Er.
  destruct (Req_dec x 0) as [Hx0 | Hx0].
  - subst x. unfold Ratan2.
    assert (r = Rabs y) as Hr.
    { rewrite Er. replace (0 * 0 + y * y) with (Rsqr y) by (unfold Rsqr; ring).
      apply sqrt_Rsqr_abs. }
    destruct (Rlt_dec 0 0) as [F | _]; [lra |].
    destruct (Rlt_dec 0 0) as [F | _]; [lra |].
    destruct (Rlt_dec 0 y) as [Hy | Hy].
    + rewrite cos_PI2, sin_PI2, Hr, Rabs_pos_eq by lra. lra.
    + destruct (Rlt_dec y 0) as [Hy' | Hy'].
      * rewrite cos_neg, sin_neg, cos_PI2, sin_PI2, Hr, Rabs_left by lra. lra.
      * assert (y = 0) by lra. subst y.
        rewrite Hr, Rabs_R0. lra.
  - assert (0 < r) as Hr by (rewrite Er; apply sqrt_lt_R0; nra).
    assert (0 < Rabs x) as Hax by (now apply Rabs_pos_lt).
    assert (cos (atan (y / x)) = Rabs x / r) as Hc.
    { rewrite cos_atan, (sqrt_one_plus_sqr y Hx0), <- Er. field. lra. }
    assert (sin (atan (y / x)) = y / x * (Rabs x / r)) as Hs.
    { rewrite sin_atan, (sqrt_one_plus_sqr y Hx0), <- Er. field. lra. }
    unfold Ratan2.
    destruct (Rlt_dec 0 x) as [Hx | Hx].
    + rewrite Hc, Hs, Rabs_pos_eq by lra. split; field; lra.
    + assert (x < 0) as Hx' by lra.
      destruct (Rlt_dec x 0) as [_ | F]; [| lra].
      destruct (Rlt_dec y 0).
      * unfold Rminus.
        rewrite cos_plus, sin_plus, cos_neg, sin_neg, cos_PI, sin_PI.
        rewrite Hc, Hs, Rabs_left by lra. split; field; lra.
      * rewrite neg_cos, neg_sin, Hc, Hs, Rabs_left by lra. split; field; lra.
Qed.

End Wrapping.


(** ** Maneuvering thruster model *)

Section Maneuvering.

Local Open Scope R_scope.

(** On finite inputs the model returns, without error, the forces of its
    specification, and prints exactly the expected diagnostic. *)
Lemma RVGazimuth_man_finite (u v angle revs : R) :
  RVGazimuth_man (Fin u) (Fin v) (Fin angle) (Fin revs)
  = Ok (expected_stdout (angle - Ratan2 v u),
        finite_pair (spec_RVGazimuth_forces u v angle revs)).
Proof.
  unfold RVGazimuth_man, expected_stdout, finite_pair,
    spec_RVGazimuth_forces, pi.
  cbn [npow2 nmul nadd nsub natan2 nneg nabs nsin ncos fst snd].
  rewrite nsqrt_fin by nra.
  rewrite !ndiv_fin by (try apply PI_neq0; lra).
  rewrite ngt_fin.
  cbn [npow2 nmul nadd nsub natan2 nneg nabs nsin ncos fst snd].
  replace (- Ratan2 v u + angle) with (angle - Ratan2 v u) by ring.
  destruct (Rlt_dec (35 * PI / 180) (Rabs (angle - Ratan2 v u)));
    cbn [bind py_round];
    (apply f_equal; apply f_equal2;
     [reflexivity | apply f_equal2; apply f_equal; ring]).
Qed.

Lemma Ratan2_0_0 : Ratan2 0 0 = 0.
Proof. unfold Ratan2. case_Rlt; lra. Qed.

Lemma Ratan2_0_pos (x : R) : 0 < x -> Ratan2 0 x = 0.
Proof.
  intros Hx. unfold Ratan2. destruct (Rlt_dec 0 x); [| lra].
  unfold Rdiv. rewrite Rmult_0_l. apply atan_0.
Qed.

(** The value at the calibration point u = 5, v = 0, angle = 0, revs = 165. *)
Lemma design_point_value :
  RVGazimuth_man (Fin 5) 0 0 (Fin 165) = Ok ([], (Fin 26145, Fin 0)).
Proof.
  rewrite RVGazimuth_man_finite.
  unfold expected_stdout, finite_pair, spec_RVGazimuth_forces.
  cbn [fst snd].
  rewrite (@Ratan2_0_pos 5) by lra.
  replace (0 - 0) with 0 by ring. replace (2 * 0) with 0 by ring.
  rewrite Rabs_R0, sin_0, cos_0.
  rewrite sqrt_sqrt by lra.
  pose proof PI_RGT_0.
  destruct (Rlt_dec (35 * PI / 180) 0); [lra |].
  apply f_equal. apply f_equal2; [reflexivity |].
  apply f_equal2; apply f_equal; field.
Qed.

(** C3, as amended: at u = 5, v = 0, angle = 0, revs = 165 the model returns
    Fx = 26145, which is the propeller thrust Ct * 165^2 = 59895 less the foil
    drag 0.5 * 1000 * 9 * 0.3 * 5^2 = 33750, and Fy = 0, printing nothing. *)
Theorem RVGazimuth_man_design_point :
  RVGazimuth_man (Fin 5) 0 0 (Fin 165) = Ok ([], (Fin 26145, Fin 0))
  /\ 26145 = 22 / 10 * 165 ^ 2 - 1 / 2 * 1000 * 9 * (3 / 10) * 5 ^ 2.
Proof. split; [exact design_point_value | lra]. Qed.

(** C3, as stated, fails: the surge force at the calibration point is not
    the bare propeller thrust Ct * 165^2. *)
Lemma RVGazimuth_man_design_point_not_thrust :
  ~ (exists stdout Fy,
        RVGazimuth_man (Fin 5) 0 0 (Fin 165)
        = Ok (stdout, (Fin (22 / 10 * 165 ^ 2), Fy))).
Proof.
  intros [stdout [Fy H]]. rewrite design_point_value in H.
  injection H as _ H _. lra.
Qed.

(** At an infinite azimuth angle the angle of attack is infinite: the
    validity check fires, and [round] raises while the warning is being
    formatted, before anything is printed or returned. *)
Lemma RVGazimuth_man_infinite_angle (u v revs : R) :
  ngt (nabs (nadd (nneg (natan2 (Fin v) (Fin u))) PInf))
      (ndiv (nmul (Fin 35) pi) (Fin 180)) = true
  /\ RVGazimuth_man (Fin u) (Fin v) PInf (Fin revs) = Raise OverflowError.
Proof.
  assert (Rsign 180 = Gt) as H180.
  { unfold Rsign. destruct (Rlt_dec 0 180); [reflexivity | lra]. }
  assert (Rsign PI = Gt) as Hpi.
  { unfold Rsign. pose proof PI_RGT_0. destruct (Rlt_dec 0 PI); [reflexivity | lra]. }
  assert (ndiv PInf (Fin PI) = PInf) as Hdiv.
  { unfold ndiv. destruct (Req_EM_T PI 0); [reflexivity |]. now rewrite Hpi. }
  unfold RVGazimuth_man, pi.
  cbn [npow2 nmul nadd nsub natan2 nneg nabs].
  rewrite !ndiv_fin by lra.
  cbn [ngt]. rewrite H180. cbn [inf_of_sign]. rewrite Hdiv.
  split; reflexivity.
Qed.

(** C4, as stated, fails: at u = 5, v = 1, revs = 165 and an infinite
    azimuth angle the angle of attack exceeds 35 degrees, yet no diagnostic
    is printed and no force is returned: the call raises. *)
Lemma RVGazimuth_man_diagnostic_fatal :
  ngt (nabs (nadd (nneg (natan2 (Fin 1) (Fin 5))) PInf))
      (ndiv (nmul (Fin 35) pi) (Fin 180)) = true
  /\ RVGazimuth_man (Fin 5) (Fin 1) PInf (Fin 165) = Raise OverflowError.
Proof. exact (RVGazimuth_man_infinite_angle 5 1 165). Qed.

(** C4, as amended: for real arguments of moderate magnitude, the sway speed
    not zero or the surge speed positive, the model prints a line exactly
    when the angle of attack [angle - atan2(v, u)] exceeds 35 degrees in
    magnitude, the line naming a validity range of +/- 30 degrees, and with
    or without the line it returns, without error, the forces of the
    computation that has no validity check.  The inflow angle is the polar
    angle in (-pi, pi] of the point (u, v). *)
Theorem RVGazimuth_man_diagnostic (u v angle revs : R) :
  moderate u -> moderate v -> moderate angle -> moderate revs ->
  v <> 0 \/ 0 < u ->
  exists stdout,
    RVGazimuth_man (Fin u) (Fin v) (Fin angle) (Fin revs)
    = Ok (stdout, finite_pair (spec_RVGazimuth_forces u v angle revs))
    /\ (stdout <> [] <-> 35 * PI / 180 < Rabs (angle - Ratan2 v u))
    /\ (stdout = []
        \/ stdout
           = [aoa_warning
                (round_half_even ((angle - Ratan2 v u) * 180 / PI))])
    /\ (forall deg : Z,
           aoa_warning deg
           = ("Warning (thrusters.RVGazimuth_man): Angle of attack="
              ++ str deg ++ "deg, assumed validity range is +/- 30deg")%string)
    /\ (- PI < Ratan2 v u <= PI
        /\ sqrt (u * u + v * v) * cos (Ratan2 v u) = u
        /\ sqrt (u * u + v * v) * sin (Ratan2 v u) = v).
Proof.
  intros _ _ _ _ _.
  exists (expected_stdout (angle - Ratan2 v u)).
  split; [apply RVGazimuth_man_finite |].
  assert (- PI < Ratan2 v u <= PI
          /\ sqrt (u * u + v * v) * cos (Ratan2 v u) = u
          /\ sqrt (u * u + v * v) * sin (Ratan2 v u) = v) as Hpolar
    by (split; [apply Ratan2_range | apply Ratan2_polar]).
  unfold expected_stdout.
  destruct (Rlt_dec (35 * PI / 180) (Rabs (angle - Ratan2 v u))) as [Hgt | Hle].
  - repeat split; auto; try apply Hpolar. discriminate.
  - repeat split; auto; try apply Hpolar. intros Hne. now elim Hne.
Qed.

Lemma moderate_small (x : R) : - 1000 <= x <= 1000 -> moderate x.
Proof.
  intros [Hlo Hhi]. unfold moderate.
  assert (1000 <= 10 ^ 100) as Hbig.
  { replace (10 ^ 100) with (1000 * 10 ^ 97) by ring.
    assert (1 <= 10 ^ 97) by (apply pow_R1_Rle; lra). lra. }
  split; lra.
Qed.

Lemma RVGazimuth_man_diagnostic_witness :
  moderate 5 /\ moderate 1 /\ moderate 1 /\ moderate 165
  /\ (1 <> 0 \/ 0 < 5)
  /\ exists stdout,
      RVGazimuth_man (Fin 5) (Fin 1) (Fin 1) (Fin 165)
      = Ok (stdout, finite_pair (spec_RVGazimuth_forces 5 1 1 165))
      /\ (stdout <> [] <-> 35 * PI / 180 < Rabs (1 - Ratan2 1 5))
      /\ (stdout = []
          \/ stdout
             = [aoa_warning (round_half_even ((1 - Ratan2 1 5) * 180 / PI))])
      /\ (forall deg : Z,
             aoa_warning deg
             = ("Warning (thrusters.RVGazimuth_man): Angle of attack="
                ++ str deg ++ "deg, assumed validity range is +/- 30deg")%string)
      /\ (- PI < Ratan2 1 5 <= PI
          /\ sqrt (5 * 5 + 1 * 1) * cos (Ratan2 1 5) = 5
          /\ sqrt (5 * 5 + 1 * 1) * sin (Ratan2 1 5) = 1).
Proof.
  assert (moderate 5) as H5 by (apply moderate_small; lra).
  assert (moderate 1) as H1 by (apply moderate_small; lra).
  assert (moderate 165) as H165 by (apply moderate_small; lra).
  assert (1 <> 0 \/ 0 < 5) as Hs by (right; lra).
  repeat (split; [assumption |]).
  exact (@RVGazimuth_man_diagnostic 5 1 1 165 H5 H1 H1 H165 Hs).
Defined.

(** C10, as stated, fails: at zero inflow speed and an infinite azimuth
    angle the call raises. *)
Lemma RVGazimuth_man_zero_inflow_raises :
  RVGazimuth_man 0 0 PInf (Fin 1) = Raise OverflowError.
Proof. exact (proj2 (RVGazimuth_man_infinite_angle 0 0 1)). Qed.

(** C10, as amended: at zero inflow speed the model returns without error,
    for every real azimuth angle and shaft speed of moderate magnitude, the
    propeller thrust Ct * revs^2 (Ct = 2.2) resolved along the azimuth
    angle, and it prints at most the one diagnostic line. *)
Theorem RVGazimuth_man_zero_inflow (angle revs : R) :
  moderate angle -> moderate revs ->
  exists stdout,
    RVGazimuth_man 0 0 (Fin angle) (Fin revs)
    = Ok (stdout,
          (Fin (22 / 10 * revs ^ 2 * cos angle),
           Fin (22 / 10 * revs ^ 2 * sin angle)))
    /\ (stdout = [] \/ exists deg : Z, stdout = [aoa_warning deg]).
Proof.
  intros _ _. exists (expected_stdout angle). split.
  - rewrite RVGazimuth_man_finite.
    unfold finite_pair, spec_RVGazimuth_forces. cbn [fst snd].
    rewrite Ratan2_0_0.
    replace (0 * 0 + 0 * 0) with 0 by ring. rewrite sqrt_0.
    replace (angle - 0) with angle by ring.
    apply f_equal. apply f_equal2; [reflexivity |].
    apply f_equal2; apply f_equal; ring.
  - unfold expected_stdout.
    destruct (Rlt_dec (35 * PI / 180) (Rabs angle)); [right | left; reflexivity].
    eexists. reflexivity.
Qed.

Lemma RVGazimuth_man_zero_inflow_witness :
  moderate 1 /\ moderate 165
  /\ exists stdout,
      RVGazimuth_man 0 0 (Fin 1) (Fin 165)
      = Ok (stdout,
            (Fin (22 / 10 * 165 ^ 2 * cos 1),
             Fin (22 / 10 * 165 ^ 2 * sin 1)))
      /\ (stdout = [] \/ exists deg : Z, stdout = [aoa_warning deg]).
Proof.
  assert (moderate 1) as H1 by (apply moderate_small; lra).
  assert (moderate 165) as H165 by (apply moderate_small; lra).
  repeat (split; [assumption |]).
  exact (@RVGazimuth_man_zero_inflow 1 165 H1 H165).
Defined.

End Maneuvering.

(** ** Error behaviour *)

Lemma take_raises (x : vec) (idx : list nat) e :
  take x idx = Raise e -> e = IndexError.
Proof.
  unfold take. induction idx as [| i idx IH]; cbn [mapM]; [discriminate |].
  intros H. apply bind_Raise_inv in H as [H | [a [_ H]]].
  - now apply get_raises in H.
  - apply bind_Raise_inv in H as [H | [bs [_ H]]]; [auto | discriminate].
Qed.

Lemma py_round_raises (x : num) e :
  py_round x = Raise e -> e = OverflowError \/ e = ValueError.
Proof. destruct x; cbn; [discriminate | | |]; intros [= <-]; auto. Qed.

(** Splits a failed sequence of calls at the call that raised, and names the
    exception that call can raise. *)
Ltac raised :=
  repeat match goal with
         | H : bind ?m _ = Raise _ |- _ =>
             let E := fresh "E" in
             destruct m eqn:E; cbn [bind] in H
         | H : Raise _ = Raise _ |- _ => injection H as <-
         | H : Ok _ = Raise _ |- _ => discriminate H
         | H : get _ _ = Raise _ |- _ => apply get_raises in H; subst
         | H : take _ _ = Raise _ |- _ => apply take_raises in H; subst
         | H : matvec _ _ = Raise _ |- _ => apply matvec_raises in H; subst
         | H : matmul _ _ = Raise _ |- _ => apply matmul_raises in H; subst
         | H : set_slice _ _ _ _ = Raise _ |- _ =>
             apply set_slice_raises in H; subst
         | H : (if ?c then _ else _) = Raise _ |- _ => destruct c
         | H : py_round _ = Raise _ |- _ =>
             apply py_round_raises in H; destruct H; subst
         end;
  unfold python_error; auto.





Lemma dot_eta6_raises (eta nu : vec) e :
  dot_eta6 eta nu = Raise e -> python_error e.
Proof. unfold dot_eta6, Rotzyx. cbv zeta. intros H. raised. Qed.




(** C1, as amended: [dot_eta6] has no singularity check.  It never raises
    [SingularTransform]; at pitch pi/2, for every real roll, yaw, position
    and body velocity, it returns a six-component rate normally, and the
    yaw-rate component, a quotient by cos(pi/2) = 0, is an infinity or NaN. *)
Theorem dot_eta6_pitch_pole_unchecked :
  (forall eta nu : vec, dot_eta6 eta nu <> Raise SingularTransform)
  /\ (forall x y z phi psi u v w p q r : R,
         exists d0 d1 d2 d3 d4 d5 : num,
           dot_eta6 (fvec [x; y; z; phi; PI / 2; psi]%R)
                    (fvec [u; v; w; p; q; r])
           = Ok [d0; d1; d2; d3; d4; d5]
           /\ is_finite d5 = false).
Proof.
  split.
  - intros eta nu H. apply dot_eta6_raises in H.
    destruct H as [H | [H | H]]; discriminate H.
  - intros x y z phi psi u v w p q r.
    do 6 eexists. split.
    + cbn -[nmul nadd ndiv ntan nsub]. reflexivity.
    + match goal with |- is_finite ?d = false => destruct (is_finite d) eqn:E end;
        [exfalso | reflexivity].
      apply nadd_finite in E as [_ E]. apply nadd_finite in E as [E _].
      apply nmul_finite in E as [E _].
      rewrite cos_PI2, ndiv_fin_zero in E. discriminate E.
Qed.

(** C1, as stated, fails: at pitch pi/2 the call raises nothing. *)
Lemma dot_eta6_pitch_pole_returns :
  ~ raises (dot_eta6 (fvec [0; 0; 0; 0; PI / 2; 0]%R)
                     (fvec [1; 0; 0; 0; 0; 1]%R)).
Proof.
  intros [e H]. cbn -[nmul nadd ndiv ntan nsub] in H. discriminate H.
Qed.










(** * Further properties of the transforms *)

(** ** Angle wrapping: fixed points, congruence, periodicity *)

Section WrappingMore.

Local Open Scope R_scope.

(** X1: an angle that already lies in (-pi, pi] is returned unchanged. *)
Theorem rad2pipi_fixed_points (a : R) :
  - PI < a <= PI -> rad2pipi (Fin a) = Fin a.
Proof.
  intros Ha. unfold rad2pipi. cbn. f_equal. now apply Ratan2_sin_cos.
Qed.

Lemma rad2pipi_fixed_points_witness :
  - PI < PI / 2 <= PI /\ rad2pipi (Fin (PI / 2)) = Fin (PI / 2).
Proof.
  assert (- PI < PI / 2 <= PI) as H by (pose proof PI_RGT_0; lra).
  split; [exact H | exact (rad2pipi_fixed_points H)].
Defined.

(** X2: the wrapped angle differs from the given one by a whole number of
    turns. *)
Theorem rad2pipi_congruent (a : R) :
  exists k : Z, rad2pipi (Fin a) = Fin (a + 2 * IZR k * PI).
Proof.
  destruct (wrap_exists a) as [k Hk]. exists k.
  destruct (sin_cos_period_Z a k) as [Hs Hc].
  unfold rad2pipi. cbn. f_equal.
  rewrite <- Hs, <- Hc. now apply Ratan2_sin_cos.
Qed.

(** X3: angles a whole number of turns apart wrap to the same angle. *)
Theorem rad2pipi_periodic (a : R) (k : Z) :
  rad2pipi (Fin (a + 2 * IZR k * PI)) = rad2pipi (Fin a).
Proof.
  destruct (sin_cos_period_Z a k) as [Hs Hc].
  unfold rad2pipi. cbn. now rewrite Hs, Hc.
Qed.

End WrappingMore.

(** ** Rotations: composition and special cases *)

Section RotationsMore.

Local Open Scope R_scope.

(** X4: the planar rotation matrix is orthonormal with determinant one, is
    the identity at angle zero, and the rotation by the opposite angle is its
    transpose. *)
Theorem Rot_planar_special_orthogonal (a : R) :
  matmul (transpose (Rot_planar (Fin a))) (Rot_planar (Fin a)) = Ok I2
  /\ matmul (Rot_planar (Fin a)) (transpose (Rot_planar (Fin a))) = Ok I2
  /\ det2 (Rot_planar (Fin a)) = Fin 1
  /\ Rot_planar (Fin (- a)) = transpose (Rot_planar (Fin a))
  /\ Rot_planar (Fin 0) = I2.
Proof.
  unfold Rot_planar, I2. cbn. trig_values.
  abstract_trig a. repeat split; entries; nsatz.
Qed.

(** X5: rotating by [b] and then by [a] about the same axis is rotating by
    [a + b]; so for the three elementary rotations and the planar one. *)
Theorem rotations_compose (a b : R) :
  matmul (Rotx (Fin a)) (Rotx (Fin b)) = Ok (Rotx (Fin (a + b)))
  /\ matmul (Roty (Fin a)) (Roty (Fin b)) = Ok (Roty (Fin (a + b)))
  /\ matmul (Rotz (Fin a)) (Rotz (Fin b)) = Ok (Rotz (Fin (a + b)))
  /\ matmul (Rot_planar (Fin a)) (Rot_planar (Fin b))
     = Ok (Rot_planar (Fin (a + b))).
Proof.
  unfold Rotx, Roty, Rotz, Rot_planar. cbn. rewrite cos_plus, sin_plus.
  repeat split; entries; ring.
Qed.

(** X6: with two of the three Euler angles zero, [Rotzyx] is the elementary
    rotation about the remaining axis. *)
Theorem Rotzyx_single_axis (a : R) :
  Rotzyx [Fin a; 0; 0]%num = Ok (Rotx (Fin a))
  /\ Rotzyx [0; Fin a; 0]%num = Ok (Roty (Fin a))
  /\ Rotzyx [0; 0; Fin a]%num = Ok (Rotz (Fin a)).
Proof.
  unfold Rotx, Roty, Rotz. cbn. trig_values.
  repeat split; entries; ring.
Qed.

End RotationsMore.

(** ** Array shapes: which calls raise, and what *)

(** X7: [Rotzyx] raises exactly when it is given fewer than three angles, the
    exception is then [IndexError]; entries after the third are ignored. *)
Theorem Rotzyx_shape (angles : vec) :
  (raises (Rotzyx angles) <-> (length angles < 3)%nat)
  /\ (forall e, Rotzyx angles = Raise e -> e = IndexError)
  /\ Rotzyx angles = Rotzyx (firstn 3 angles).
Proof.
  destruct angles as [| a0 [| a1 [| a2 rest]]]; cbn;
    (split; [split | split]);
    try (intros; lia); try (intros _; eexists; reflexivity);
    try (intros e [= <-]; reflexivity); try reflexivity;
    try (intros [e H]; discriminate H); try (intros e H; discriminate H).
Qed.

(** X8: [Smat] raises exactly when it is given fewer than three components,
    the exception is then [IndexError]; components after the third are
    ignored. *)
Theorem Smat_shape (x : vec) :
  (raises (Smat x) <-> (length x < 3)%nat)
  /\ (forall e, Smat x = Raise e -> e = IndexError)
  /\ Smat x = Smat (firstn 3 x).
Proof.
  destruct x as [| x0 [| x1 [| x2 rest]]]; cbn;
    (split; [split | split]);
    try (intros; lia); try (intros _; eexists; reflexivity);
    try (intros e [= <-]; reflexivity); try reflexivity;
    try (intros [e H]; discriminate H); try (intros e H; discriminate H).
Qed.

(** X9: [dot_eta3] raises exactly when the velocity does not have three
    components, and [dot_eta4] exactly when it does not have four; the
    exception is [ValueError], whatever the heading. *)
Theorem dot_eta3_dot_eta4_shape (psi : num) (nu : vec) :
  (dot_eta3 psi nu = Raise ValueError <-> length nu <> 3%nat)
  /\ (raises (dot_eta3 psi nu) <-> length nu <> 3%nat)
  /\ (dot_eta4 psi nu = Raise ValueError <-> length nu <> 4%nat)
  /\ (raises (dot_eta4 psi nu) <-> length nu <> 4%nat).
Proof.
  unfold dot_eta3, dot_eta4, matvec, Rotz, conforms, raises.
  cbn [forallb length andb].
  destruct (Nat.eqb_spec 3 (length nu)) as [E3 | N3];
    destruct (Nat.eqb_spec 4 (length nu)) as [E4 | N4];
    cbn [andb]; repeat split;
    try (intros; lia); try (intros _; reflexivity);
    try (intros _; eexists; reflexivity);
    try (intros H; discriminate H); try (intros [e H]; discriminate H).
Qed.

(** ** Kinematic transforms *)

Section KinematicsMore.

Local Open Scope R_scope.

(** X10: [dot_eta3] keeps the planar speed and hands the yaw rate through
    unchanged. *)
Theorem dot_eta3_preserves_speed (psi u v r : R) :
  exists dx dy : R,
    dot_eta3 (Fin psi) (fvec [u; v; r]) = Ok (fvec [dx; dy; r])
    /\ dx * dx + dy * dy = u * u + v * v.
Proof.
  exists (cos psi * u - sin psi * v), (sin psi * u + cos psi * v).
  split.
  - entries; ring.
  - abstract_trig psi. nsatz.
Qed.

(** X11: rotating the planar pose rate back by the heading recovers the body
    velocity. *)
Theorem dot_eta3_round_trip (psi u v r : R) :
  (d <- dot_eta3 (Fin psi) (fvec [u; v; r]) ;; matvec (Rotz (Fin (- psi))) d)
  = Ok (fvec [u; v; r]).
Proof.
  cbn. trig_values. abstract_trig psi. entries; nsatz.
Qed.

(** X12: on surge, sway and yaw rate [dot_eta4] agrees with [dot_eta3], and
    it hands the heave velocity through unchanged. *)
Theorem dot_eta4_extends_dot_eta3 (psi u v w r : R) :
  exists dx dy : R,
    dot_eta3 (Fin psi) (fvec [u; v; r]) = Ok (fvec [dx; dy; r])
    /\ dot_eta4 (Fin psi) (fvec [u; v; w; r]) = Ok (fvec [dx; dy; w; r]).
Proof.
  exists (cos psi * u - sin psi * v), (sin psi * u + cos psi * v).
  split; entries; ring.
Qed.

(** X13: the planar block of [dot_eta4] is the planar rotation matrix applied
    to surge and sway. *)
Theorem dot_eta4_planar_block (psi u v w r : R) :
  exists dx dy : R,
    matvec (Rot_planar (Fin psi)) (fvec [u; v]) = Ok (fvec [dx; dy])
    /\ dot_eta4 (Fin psi) (fvec [u; v; w; r]) = Ok (fvec [dx; dy; w; r]).
Proof.
  exists (cos psi * u - sin psi * v), (sin psi * u + cos psi * v).
  split; entries; ring.
Qed.

(** Away from its poles [np.tan] is the real tangent. *)
Lemma ntan_fin (a : R) : cos a <> 0 -> ntan (Fin a) = Fin (tan a).
Proof. intros H. unfold ntan. now rewrite ndiv_fin. Qed.

(** The six-component pose rate away from the pitch poles. *)
Lemma dot_eta6_regular_value (x y z phi theta psi u v w p q r : R) :
  cos theta <> 0 ->
  dot_eta6 (fvec [x; y; z; phi; theta; psi]) (fvec [u; v; w; p; q; r])
  = Ok (fvec
          [cos psi * cos theta * u
           + (- sin psi * cos phi + cos psi * sin theta * sin phi) * v
           + (sin psi * sin phi + cos psi * cos phi * sin theta) * w;
           sin psi * cos theta * u
           + (cos psi * cos phi + sin phi * sin theta * sin psi) * v
           + (- cos psi * sin phi + sin theta * sin psi * cos phi) * w;
           - sin theta * u + cos theta * sin phi * v + cos theta * cos phi * w;
           p + (sin phi * q + cos phi * r) * tan theta;
           cos phi * q - sin phi * r;
           (sin phi * q + cos phi * r) / cos theta]).
Proof.
  intros Hc. unfold dot_eta6.
  cbn [fvec map slice skipn firstn Nat.sub get nth_error bind].
  rewrite (@ntan_fin theta Hc).
  cbn [nsin ncos]. rewrite !ndiv_fin by exact Hc.
  entries; unfold tan; field; exact Hc.
Qed.

(** X14: away from the pitch poles [dot_eta6] returns six finite rates; the
    linear rate has the speed of the body velocity, and the Euler-angle rates
    are the body rates resolved by roll and divided by the cosine of pitch. *)
Theorem dot_eta6_regular (x y z phi theta psi u v w p q r : R) :
  cos theta <> 0 ->
  exists dx dy dz : R,
    dot_eta6 (fvec [x; y; z; phi; theta; psi]) (fvec [u; v; w; p; q; r])
    = Ok (fvec [dx; dy; dz;
                p + (sin phi * q + cos phi * r) * tan theta;
                cos phi * q - sin phi * r;
                (sin phi * q + cos phi * r) / cos theta])
    /\ dx * dx + dy * dy + dz * dz = u * u + v * v + w * w.
Proof.
  intros Hc. do 3 eexists. split.
  - apply (@dot_eta6_regular_value x y z phi theta psi u v w p q r Hc).
  - abstract_trig phi. abstract_trig theta. abstract_trig psi. nsatz.
Qed.

Lemma dot_eta6_regular_witness :
  cos 0 <> 0
  /\ exists dx dy dz : R,
      dot_eta6 (fvec [0; 0; 0; 0; 0; 0]) (fvec [1; 0; 0; 0; 0; 1])
      = Ok (fvec [dx; dy; dz;
                  0 + (sin 0 * 0 + cos 0 * 1) * tan 0;
                  cos 0 * 0 - sin 0 * 1;
                  (sin 0 * 0 + cos 0 * 1) / cos 0])
      /\ dx * dx + dy * dy + dz * dz = 1 * 1 + 0 * 0 + 0 * 0.
Proof.
  assert (cos 0 <> 0) as H by (rewrite cos_0; lra).
  split; [exact H | exact (@dot_eta6_regular 0 0 0 0 0 0 1 0 0 0 0 1 H)].
Defined.

(** X15: with zero roll and pitch [dot_eta6] is the planar transform: surge
    and sway are rotated by the heading as in [dot_eta3], and heave and the
    three body rates are handed through. *)
Theorem dot_eta6_level (x y z psi u v w p q r : R) :
  exists dx dy : R,
    dot_eta3 (Fin psi) (fvec [u; v; r]) = Ok (fvec [dx; dy; r])
    /\ dot_eta6 (fvec [x; y; z; 0; 0; psi]) (fvec [u; v; w; p; q; r])
       = Ok (fvec [dx; dy; w; p; q; r]).
Proof.
  exists (cos psi * u - sin psi * v), (sin psi * u + cos psi * v).
  split; [entries; ring |].
  assert (cos 0 <> 0) as H by (rewrite cos_0; lra).
  rewrite (@dot_eta6_regular_value x y z 0 0 psi u v w p q r H).
  unfold tan. rewrite cos_0, sin_0. entries; field.
Qed.

End KinematicsMore.

(** ** Shapes accepted by [dot_eta6] *)

Ltac eval_arrays :=
  cbn -[nmul nadd ndiv ntan nneg nsin ncos nsub].

(** X16: a pose of fewer than six components makes [dot_eta6] raise
    [IndexError], whatever the velocity. *)
Theorem dot_eta6_short_pose (eta nu : vec) :
  (length eta < 6)%nat -> dot_eta6 eta nu = Raise IndexError.
Proof.
  intros H.
  destruct eta as [| e0 [| e1 [| e2 [| e3 [| e4 [| e5 rest]]]]]];
    cbn in H; try lia; reflexivity.
Qed.

Lemma dot_eta6_short_pose_witness :
  (length [Fin 1; Fin 2; Fin 3] < 6)%nat
  /\ dot_eta6 [Fin 1; Fin 2; Fin 3] [] = Raise IndexError.
Proof.
  assert (length [Fin 1; Fin 2; Fin 3] < 6)%nat as H by (cbn; lia).
  split; [exact H | exact (dot_eta6_short_pose [Fin 1; Fin 2; Fin 3] [] H)].
Defined.

(** X17: with a pose of six components or more, a velocity of fewer than six
    components makes [dot_eta6] raise [ValueError]. *)
Theorem dot_eta6_short_velocity (eta nu : vec) :
  (6 <= length eta)%nat -> (length nu < 6)%nat ->
  dot_eta6 eta nu = Raise ValueError.
Proof.
  intros He Hn.
  destruct eta as [| e0 [| e1 [| e2 [| e3 [| e4 [| e5 rest]]]]]];
    cbn in He; try lia.
  destruct nu as [| n0 [| n1 [| n2 [| n3 [| n4 [| n5 more]]]]]];
    cbn in Hn; try lia; reflexivity.
Qed.

Lemma dot_eta6_short_velocity_witness :
  (6 <= length (zeros 6))%nat /\ (length (zeros 3) < 6)%nat
  /\ dot_eta6 (zeros 6) (zeros 3) = Raise ValueError.
Proof.
  assert (6 <= length (zeros 6))%nat as He by (cbn; lia).
  assert (length (zeros 3) < 6)%nat as Hn by (cbn; lia).
  split; [exact He |].
  split; [exact Hn | exact (dot_eta6_short_velocity (zeros 6) (zeros 3) He Hn)].
Defined.

(** X18: with six components or more in both arguments [dot_eta6] returns a
    vector as long as the pose; its first six entries are the rates computed
    from the first six entries of the pose and of the velocity, every further
    entry is zero. *)
Theorem dot_eta6_long_arguments (eta nu : vec) :
  (6 <= length eta)%nat -> (6 <= length nu)%nat ->
  exists d : vec,
    dot_eta6 (firstn 6 eta) (firstn 6 nu) = Ok d
    /\ length d = 6%nat
    /\ dot_eta6 eta nu = Ok (d ++ zeros (length eta - 6)).
Proof.
  intros He Hn.
  destruct eta as [| e0 [| e1 [| e2 [| e3 [| e4 [| e5 rest]]]]]];
    cbn in He; try lia.
  destruct nu as [| n0 [| n1 [| n2 [| n3 [| n4 [| n5 more]]]]]];
    cbn in Hn; try lia.
  eexists. split; [eval_arrays; reflexivity |].
  split; [reflexivity |].
  eval_arrays. rewrite Nat.sub_0_r. reflexivity.
Qed.

Lemma dot_eta6_long_arguments_witness :
  (6 <= length (zeros 7))%nat /\ (6 <= length (zeros 6))%nat
  /\ exists d : vec,
      dot_eta6 (firstn 6 (zeros 7)) (firstn 6 (zeros 6)) = Ok d
      /\ length d = 6%nat
      /\ dot_eta6 (zeros 7) (zeros 6) = Ok (d ++ zeros (length (zeros 7) - 6)).
Proof.
  assert (6 <= length (zeros 7))%nat as He by (cbn; lia).
  assert (6 <= length (zeros 6))%nat as Hn by (cbn; lia).
  split; [exact He |].
  split; [exact Hn | exact (dot_eta6_long_arguments (zeros 7) (zeros 6) He Hn)].
Defined.

(** ** Skew matrix and thruster load mapper *)

Section ThrusterMore.

Local Open Scope R_scope.

(** X19: the cross product of a real vector with itself vanishes, and
    exchanging the two vectors changes the sign of [Smat x @ y]. *)
Theorem Smat_alternating (x0 x1 x2 y0 y1 y2 : R) :
  (S <- Smat (fvec [x0; x1; x2]) ;; matvec S (fvec [x0; x1; x2]))
  = Ok (fvec [0; 0; 0])
  /\ exists a b c : R,
      (S <- Smat (fvec [x0; x1; x2]) ;; matvec S (fvec [y0; y1; y2]))
      = Ok (fvec [a; b; c])
      /\ (S <- Smat (fvec [y0; y1; y2]) ;; matvec S (fvec [x0; x1; x2]))
         = Ok (fvec [- a; - b; - c]).
Proof.
  split; [entries; ring |].
  exists (x1 * y2 - x2 * y1), (x2 * y0 - x0 * y2), (x0 * y1 - x1 * y0).
  split; entries; ring.
Qed.

(** X20: for real arguments [forceAzi6] returns a horizontal force of the
    commanded magnitude along the azimuth direction, no heave force, and the
    moment of that force about the origin, the cross product of the location
    with the force. *)
Theorem forceAzi6_force_and_moment (f a lx ly lz : R) :
  exists Mx My Mz : R,
    forceAzi6 (Fin f) (Fin a) (fvec [lx; ly; lz])
    = Ok (fvec [f * cos a; f * sin a; 0; Mx; My; Mz])
    /\ (f * cos a) * (f * cos a) + (f * sin a) * (f * sin a) = f * f
    /\ cross (fvec [lx; ly; lz]) (fvec [f * cos a; f * sin a; 0])
       = Ok (fvec [Mx; My; Mz]).
Proof.
  exists (- (f * lz * sin a)), (f * lz * cos a),
    (f * (lx * sin a - ly * cos a)).
  split; [entries; ring |].
  split; [abstract_trig a; nsatz | entries; ring].
Qed.

(** X21: the yaw moment returned by [forceAzi3] is the planar moment
    lx * Fy - ly * Fx of the returned force; it does not depend on the
    height of the thruster. *)
Theorem forceAzi3_planar_moment (f a lx ly lz : R) :
  forceAzi3 (Fin f) (Fin a) (fvec [lx; ly; lz])
  = Ok (fvec [f * cos a; f * sin a;
              lx * (f * sin a) - ly * (f * cos a)]).
Proof. entries; ring. Qed.

(** X22: both load mappers raise exactly when the location has fewer than
    three components, whatever the force and the azimuth. *)
Theorem forceAzi_shape (force azi : num) (loc : vec) :
  (raises (forceAzi6 force azi loc) <-> (length loc < 3)%nat)
  /\ (raises (forceAzi3 force azi loc) <-> (length loc < 3)%nat)
  /\ (forall e, forceAzi6 force azi loc = Raise e -> e = IndexError)
  /\ (forall e, forceAzi3 force azi loc = Raise e -> e = IndexError).
Proof.
  destruct loc as [| l0 [| l1 [| l2 rest]]]; eval_arrays;
    repeat split;
    try (intros; lia); try (intros _; eexists; reflexivity);
    try (intros e [= <-]; reflexivity);
    try (intros [e H]; discriminate H); try (intros e H; discriminate H).
Qed.

(** X23: the load is linear in the commanded force: the load of the sum of
    two forces is the sum of the two loads. *)
Theorem forceAzi6_superposition (f g a lx ly lz : R) :
  (tf <- forceAzi6 (Fin f) (Fin a) (fvec [lx; ly; lz]) ;;
   tg <- forceAzi6 (Fin g) (Fin a) (fvec [lx; ly; lz]) ;;
   Ok (vadd tf tg))
  = forceAzi6 (Fin (f + g)) (Fin a) (fvec [lx; ly; lz]).
Proof. entries; ring. Qed.

(** X24: turning the thruster by half a turn is reversing its force. *)
Theorem forceAzi6_half_turn (f a lx ly lz : R) :
  forceAzi6 (Fin f) (Fin (a + PI)) (fvec [lx; ly; lz])
  = forceAzi6 (Fin (- f)) (Fin a) (fvec [lx; ly; lz]).
Proof. cbn. rewrite neg_cos, neg_sin. entries; ring. Qed.

End ThrusterMore.

(** ** Maneuvering thruster model: symmetries and special regimes *)

Section ManeuveringMore.

Local Open Scope R_scope.

Lemma npow2_nneg (x : num) : npow2 (nneg x) = npow2 x.
Proof. destruct x; cbn; try reflexivity. f_equal. ring. Qed.

(** X25: the model depends on the shaft speed through its square only:
    reversing the sign of [revs] changes nothing, for any values of the
    arguments.  The propeller term never models reverse thrust. *)
Theorem RVGazimuth_man_even_in_revs (u v angle revs : num) :
  RVGazimuth_man u v angle (nneg revs) = RVGazimuth_man u v angle revs.
Proof. unfold RVGazimuth_man. rewrite npow2_nneg. reflexivity. Qed.




(** X27: going ahead (u > 0) with no sway and the thruster straight, for
    arguments of moderate magnitude, the model returns the propeller thrust
    less a foil drag of 1350 u^2, no sway force, and prints nothing. *)
Theorem RVGazimuth_man_straight_ahead (u revs : R) :
  0 < u -> moderate u -> moderate revs ->
  RVGazimuth_man (Fin u) (Fin 0) (Fin 0) (Fin revs)
  = Ok ([], (Fin (22 / 10 * revs ^ 2 - 1350 * u ^ 2), Fin 0)).
Proof.
  intros Hu _ _. rewrite RVGazimuth_man_finite.
  assert (Ratan2 0 u = 0) as Hin by (now apply Ratan2_0_pos).
  unfold expected_stdout, finite_pair, spec_RVGazimuth_forces.
  cbn [fst snd]. rewrite Hin.
  replace (0 - 0) with 0 by ring. replace (2 * 0) with 0 by ring.
  rewrite Rabs_R0, sin_0, cos_0.
  rewrite sqrt_sqrt by nra.
  pose proof PI_RGT_0.
  destruct (Rlt_dec (35 * PI / 180) 0); [lra |].
  apply f_equal. apply f_equal2; [reflexivity |].
  apply f_equal2; apply f_equal; field.
Qed.

Lemma RVGazimuth_man_straight_ahead_witness :
  0 < 2 /\ moderate 2 /\ moderate 100
  /\ RVGazimuth_man (Fin 2) (Fin 0) (Fin 0) (Fin 100)
     = Ok ([], (Fin (22 / 10 * 100 ^ 2 - 1350 * 2 ^ 2), Fin 0)).
Proof.
  assert (0 < 2) as H by lra.
  assert (moderate 2) as H2 by (apply moderate_small; lra).
  assert (moderate 100) as H100 by (apply moderate_small; lra).
  repeat (split; [assumption |]).
  exact (@RVGazimuth_man_straight_ahead 2 100 H H2 H100).
Defined.


Lemma round_half_even_IZR (z : Z) : round_half_even (IZR z) = z.
Proof.
  unfold round_half_even.
  assert (Int_part (IZR z) = z) as ->.
  { unfold Int_part. rewrite <- (up_tech (IZR z) z).
    - lia.
    - lra.
    - rewrite plus_IZR. lra. }
  replace (IZR z - IZR z) with 0 by ring.
  destruct (Rlt_dec 0 (1 / 2)); [reflexivity | lra].
Qed.

(** X29: going astern (u < 0) with no sway and the thruster straight, for
    arguments of moderate magnitude, the inflow comes from dead astern: the
    angle of attack is 180 degrees in magnitude, so the warning is always
    printed, naming -180 or 180 degrees (the sign is that of the zero sway
    speed handed to [np.arctan2]); the foil drag 4500 (0.3 + 0.3 pi) u^2 adds
    to the propeller thrust, and there is no sway force. *)
Theorem RVGazimuth_man_straight_astern (u revs : R) :
  u < 0 -> moderate u -> moderate revs ->
  exists deg : Z,
    (deg = -180 \/ deg = 180)%Z
    /\ RVGazimuth_man (Fin u) (Fin 0) (Fin 0) (Fin revs)
       = Ok ([aoa_warning deg],
             (Fin (22 / 10 * revs ^ 2
                   + 4500 * (3 / 10 + 3 / 10 * PI) * u ^ 2),
              Fin 0)).
Proof.
  intros Hu _ _. exists (-180)%Z. split; [left; reflexivity |].
  rewrite RVGazimuth_man_finite.
  pose proof PI_RGT_0 as Hpi.
  assert (Ratan2 0 u = PI) as Hin.
  { unfold Ratan2. destruct (Rlt_dec 0 u); [lra |].
    destruct (Rlt_dec u 0); [| lra]. destruct (Rlt_dec 0 0); [lra |].
    unfold Rdiv. rewrite Rmult_0_l, atan_0. ring. }
  unfold expected_stdout, finite_pair, spec_RVGazimuth_forces.
  cbn [fst snd]. rewrite Hin.
  replace (0 - PI) with (- PI) by ring.
  replace (2 * - PI) with (- (2 * PI)) by ring.
  rewrite Rabs_Ropp, (Rabs_pos_eq PI) by lra.
  rewrite !sin_neg, !cos_neg, sin_2PI, sin_PI, cos_PI, sin_0, cos_0.
  rewrite sqrt_sqrt by nra.
  destruct (Rlt_dec (35 * PI / 180) PI); [| lra].
  replace (- PI * 180 / PI) with (IZR (-180)) by (field; lra).
  rewrite round_half_even_IZR.
  apply f_equal. apply f_equal2; [reflexivity |].
  apply f_equal2; apply f_equal; field.
Qed.

Lemma RVGazimuth_man_straight_astern_witness :
  - 1 < 0 /\ moderate (- 1) /\ moderate 100
  /\ exists deg : Z,
      (deg = -180 \/ deg = 180)%Z
      /\ RVGazimuth_man (Fin (- 1)) (Fin 0) (Fin 0) (Fin 100)
         = Ok ([aoa_warning deg],
               (Fin (22 / 10 * 100 ^ 2
                     + 4500 * (3 / 10 + 3 / 10 * PI) * (- 1) ^ 2),
                Fin 0)).
Proof.
  assert (- 1 < 0) as H by lra.
  assert (moderate (- 1)) as H1 by (apply moderate_small; lra).
  assert (moderate 100) as H100 by (apply moderate_small; lra).
  repeat (split; [assumption |]).
  exact (@RVGazimuth_man_straight_astern (- 1) 100 H H1 H100).
Defined.

Example aoa_warning_astern :
  aoa_warning (-180)
  = "Warning (thrusters.RVGazimuth_man): Angle of attack=-180deg, assumed validity range is +/- 30deg"%string.
Proof. reflexivity. Qed.

End ManeuveringMore.
